(** * npm-publish: normalisation of the publish options

  A shallow embedding of [src/normalize-options.ts] and the properties of
  its option normaliser.  The TypeScript source works on values of type
  [unknown] that it narrows at run time, so the embedding starts with a
  small model of the JavaScript values, strings and built-ins that the
  file touches, then follows the source function by function. *)

From Stdlib Require Import List NArith ZArith Bool String Ascii Lia.
From Stdlib Require Import Floats.PrimFloat.
Import ListNotations.

Set Implicit Arguments.

(** ** JavaScript values *)

Module Js.

(** A JavaScript string is a sequence of UTF-16 code units (0 .. 65535). *)
Definition code_unit := N.
Definition js_string := list code_unit.

(** An ASCII literal of the source, as code units. *)
Definition lit (s : string) : js_string :=
  map N_of_ascii (list_ascii_of_string s).

Definition js_string_eqb (s t : js_string) : bool :=
  if list_eq_dec N.eq_dec s t then true else false.

(** A [URL] object, known by its serialisation. *)
Record URL : Type := mkURL { href : js_string }.

(** The run-time values an [unknown] can hold. *)
Inductive unknown : Type :=
| Undefined
| Null
| Bool (b : bool)
| Number (f : float)
| BigInt (z : Z)
| Str (s : js_string)
| Symbol (id : positive)
| UrlObj (u : URL)
| Object (id : positive).

(** [v === undefined] *)
Definition is_undefined (v : unknown) : bool :=
  match v with Undefined => true | _ => false end.

(** [v == undefined]: loose equality also takes [null]. *)
Definition is_nullish (v : unknown) : bool :=
  match v with Undefined | Null => true | _ => false end.

(** [typeof v === "string"] *)
Definition is_string (v : unknown) : bool :=
  match v with Str _ => true | _ => false end.

(** [v === s] for a string constant [s]. *)
Definition strict_eq_str (v : unknown) (s : js_string) : bool :=
  match v with Str t => js_string_eqb t s | _ => false end.

(** [v ?? d] *)
Definition coalesce (v d : unknown) : unknown :=
  if is_nullish v then d else v.

(** [Boolean(v)], the ToBoolean coercion: [undefined], [null], [false],
    [+0], [-0], [NaN], [0n] and the empty string are falsy. *)
Definition ToBoolean (v : unknown) : bool :=
  match v with
  | Undefined | Null => false
  | Bool b => b
  | Number f => negb (PrimFloat.eqb f PrimFloat.zero || PrimFloat.is_nan f)
  | BigInt z => negb (Z.eqb z 0)
  | Str s => negb (Nat.eqb (List.length s) 0)
  | Symbol _ | UrlObj _ | Object _ => true
  end.

(** *** [String.prototype.trim] *)

(** WhiteSpace: TAB, VT, FF, ZWNBSP and the Unicode space separators. *)
Definition is_white_space (c : code_unit) : bool :=
  ((c =? 0x0009) || (c =? 0x000B) || (c =? 0x000C) || (c =? 0xFEFF)
   || (c =? 0x0020) || (c =? 0x00A0) || (c =? 0x1680)
   || ((0x2000 <=? c) && (c <=? 0x200A))
   || (c =? 0x202F) || (c =? 0x205F) || (c =? 0x3000))%N.

(** LineTerminator: LF, CR, LS, PS. *)
Definition is_line_terminator (c : code_unit) : bool :=
  ((c =? 0x000A) || (c =? 0x000D) || (c =? 0x2028) || (c =? 0x2029))%N.

Definition is_trimmed_unit (c : code_unit) : bool :=
  is_white_space c || is_line_terminator c.

Fixpoint trim_start (s : js_string) : js_string :=
  match s with
  | [] => []
  | c :: r => if is_trimmed_unit c then trim_start r else s
  end.

Definition trim_end (s : js_string) : js_string :=
  rev (trim_start (rev s)).

Definition trim (s : js_string) : js_string :=
  trim_end (trim_start s).

End Js.

Import Js.

(** ** Errors and completions *)

(** Modelled from the spec: the error classes of [errors.js], one per
    invalid field, each with the raw value the source passes to it; and the
    [URIError] of the run time, which [encodeURIComponent] throws. *)
Inductive Error : Type :=
| InvalidTokenError
| InvalidRegistryUrlError (v : unknown)
| InvalidTagError (v : unknown)
| InvalidAccessError (v : unknown)
| InvalidStrategyError (v : unknown)
| URIError.

(** The outcome of a call: a returned value or a thrown error. *)
Inductive Completion (A : Type) : Type :=
| Return (a : A)
| Throw (e : Error).

Arguments Return {A} a.
Arguments Throw {A} e.

Definition bind {A B : Type} (c : Completion A) (k : A -> Completion B)
: Completion B :=
match c with
| Return a => k a
| Throw e => Throw e
end.

Notation "x <- c ;; k" := (bind c (fun x => k))
(at level 61, c at next level, right associativity).

(** ** [encodeURIComponent] *)

Module Uri.

Local Open Scope N_scope.

(** uriUnescaped: letters, digits and the marks [- _ . ! ~ * ' ( )]. *)
Definition is_unescaped (c : code_unit) : bool :=
  ((0x41 <=? c) && (c <=? 0x5A)) || ((0x61 <=? c) && (c <=? 0x7A))
  || ((0x30 <=? c) && (c <=? 0x39))
  || (c =? 0x2D) || (c =? 0x5F) || (c =? 0x2E) || (c =? 0x21)
  || (c =? 0x7E) || (c =? 0x2A) || (c =? 0x27) || (c =? 0x28) || (c =? 0x29).

Definition is_leading_surrogate (c : code_unit) : bool :=
  (0xD800 <=? c) && (c <=? 0xDBFF).

Definition is_trailing_surrogate (c : code_unit) : bool :=
  (0xDC00 <=? c) && (c <=? 0xDFFF).

Definition surrogate_pair_to_code_point (lead trail : code_unit) : N :=
  (lead - 0xD800) * 0x400 + (trail - 0xDC00) + 0x10000.

(** The octets of the UTF-8 encoding of a code point. *)
Definition utf8 (cp : N) : list N :=
  if cp <? 0x80 then [cp]
  else if cp <? 0x800 then
    [N.lor 0xC0 (N.shiftr cp 6); N.lor 0x80 (N.land cp 0x3F)]
  else if cp <? 0x10000 then
    [N.lor 0xE0 (N.shiftr cp 12);
     N.lor 0x80 (N.land (N.shiftr cp 6) 0x3F);
     N.lor 0x80 (N.land cp 0x3F)]
  else
    [N.lor 0xF0 (N.shiftr cp 18);
     N.lor 0x80 (N.land (N.shiftr cp 12) 0x3F);
     N.lor 0x80 (N.land (N.shiftr cp 6) 0x3F);
     N.lor 0x80 (N.land cp 0x3F)].

Definition hex_digit (d : N) : code_unit :=
  if d <? 10 then 0x30 + d else 0x41 + (d - 10).

(** [%XY] with upper-case hexadecimal digits. *)
Definition percent_escape (octet : N) : js_string :=
  [0x25; hex_digit (octet / 16); hex_digit (octet mod 16)].

Definition escape_code_point (cp : N) : js_string :=
  flat_map percent_escape (utf8 cp).

(** The Encode operation of ECMA-262 with the unescaped set of
    [encodeURIComponent]: an unescaped unit is copied, any other code point
    is written as the escapes of its UTF-8 octets, and a surrogate that is
    not part of a pair throws [URIError]. *)
Fixpoint encodeURIComponent (s : js_string) : Completion js_string :=
  match s with
  | [] => Return []
  | c :: rest =>
      if is_unescaped c then
        r <- encodeURIComponent rest ;; Return (c :: r)
      else if is_trailing_surrogate c then Throw URIError
      else if is_leading_surrogate c then
        match rest with
        | [] => Throw URIError
        | d :: rest' =>
            if is_trailing_surrogate d then
              r <- encodeURIComponent rest' ;;
              Return (escape_code_point (surrogate_pair_to_code_point c d) ++ r)
            else Throw URIError
        end
      else
        r <- encodeURIComponent rest ;; Return (escape_code_point c ++ r)
  end.

End Uri.

Import Uri.

(** ** Data model *)

(** Modelled from the spec: the constants of [options.js], which the file
    imports: the two access values and the two strategy values. *)
Definition ACCESS_PUBLIC : js_string := lit "public".
Definition ACCESS_RESTRICTED : js_string := lit "restricted".
Definition STRATEGY_UPGRADE : js_string := lit "upgrade".
Definition STRATEGY_ALL : js_string := lit "all".

Definition REGISTRY_NPM : js_string := lit "https://registry.npmjs.org/".
Definition TAG_LATEST : js_string := lit "latest".

(** The string-literal types [Access] and [Strategy]. *)
Inductive Access : Type := Public | Restricted.
Inductive Strategy : Type := All | Upgrade.

Definition Access_string (a : Access) : js_string :=
  match a with Public => ACCESS_PUBLIC | Restricted => ACCESS_RESTRICTED end.

Definition Strategy_string (s : Strategy) : js_string :=
  match s with All => STRATEGY_ALL | Upgrade => STRATEGY_UPGRADE end.

(** The value of an [Access | undefined]. *)
Definition Access_value (a : option Access) : unknown :=
  match a with Some x => Str (Access_string x) | None => Undefined end.

(** Modelled from the spec: [PackageManifest] of [read-manifest.js], of which
    the normaliser reads [scope] and [publishConfig]; an absent field is
    [Undefined], an absent [publishConfig] is [None].  The manifest comes from
    parsed JSON, so the fields are kept untyped, as the run time has them. *)
Module PublishConfig.
Record PackagePublishConfig : Type := {
  tag : unknown;
  registry : unknown;
  access : unknown;
  provenance : unknown
}.
End PublishConfig.
Definition PackagePublishConfig : Type := PublishConfig.PackagePublishConfig.

Record PackageManifest : Type := {
  scope : unknown;
  publishConfig : option PackagePublishConfig
}.

(** [manifest.publishConfig?.field] *)
Definition publishConfig_field (manifest : PackageManifest)
  (field : PackagePublishConfig -> unknown) : unknown :=
  match publishConfig manifest with
  | Some c => field c
  | None => Undefined
  end.

(** The raw user options: every field is [unknown] until validated. *)
Module Raw.
Record Options : Type := {
  token : unknown;
  registry : unknown;
  tag : unknown;
  access : unknown;
  provenance : unknown;
  ignoreScripts : unknown;
  dryRun : unknown;
  strategy : unknown;
  logger : unknown;
  temporaryDirectory : unknown;
  forceCommandLineOptions : unknown
}.
End Raw.
Definition Options : Type := Raw.Options.

(** A config value, and whether that value was left to its default. *)
Record ConfigValue (TValue : Type) : Type := {
  value : TValue;
  isDefault : bool
}.

Module Out.
Record NormalizedOptions : Type := {
  registry : URL;
  token : js_string;
  tag : ConfigValue js_string;
  access : ConfigValue (option Access);
  provenance : ConfigValue bool;
  ignoreScripts : ConfigValue bool;
  dryRun : ConfigValue bool;
  strategy : ConfigValue Strategy;
  logger : unknown;
  temporaryDirectory : unknown
}.
End Out.
Definition NormalizedOptions : Type := Out.NormalizedOptions.

(** What the normaliser takes from its host: the [URL] constructor ([None]
    when it throws) and the result of [os.tmpdir()]. *)
Record Host : Type := {
  new_URL : unknown -> option URL;
  os_tmpdir : js_string
}.

(** ** Validators *)

Definition validateToken (v : unknown) : Completion js_string :=
  match v with
  | Str s => if Nat.ltb 0 (List.length s) then Return s else Throw InvalidTokenError
  | _ => Throw InvalidTokenError
  end.

Definition validateRegistry (host : Host) (v : unknown) : Completion URL :=
  match new_URL host v with
  | Some u => Return u
  | None => Throw (InvalidRegistryUrlError v)
  end.

Definition validateTag (v : unknown) : Completion js_string :=
  match v with
  | Str s =>
      let trimmedValue := trim s in
      encodedValue <- encodeURIComponent trimmedValue ;;
      if Nat.ltb 0 (List.length trimmedValue)
         && js_string_eqb trimmedValue encodedValue
      then Return s
      else Throw (InvalidTagError v)
  | _ => Throw (InvalidTagError v)
  end.

Definition validateAccess (v : unknown) : Completion (option Access) :=
  if is_undefined v then Return None
  else if strict_eq_str v ACCESS_PUBLIC then Return (Some Public)
  else if strict_eq_str v ACCESS_RESTRICTED then Return (Some Restricted)
  else Throw (InvalidAccessError v).

Definition validateStrategy (v : unknown) : Completion Strategy :=
  if strict_eq_str v STRATEGY_ALL then Return All
  else if strict_eq_str v STRATEGY_UPGRADE then Return Upgrade
  else Throw (InvalidStrategyError v).

(** The [Boolean] constructor used as a validator: it never throws. *)
Definition Boolean (v : unknown) : Completion bool :=
  Return (ToBoolean v).

Definition setValue {TValue : Type} (v defaultValue : unknown)
  (validate : unknown -> Completion TValue) : Completion (ConfigValue TValue) :=
  x <- validate (coalesce v defaultValue) ;;
  Return {| value := x; isDefault := is_undefined v |}.

(** ** The normaliser *)

(** The four [let] variables of [normalizeOptions]. *)
Record Defaults : Type := {
  defaultTag : unknown;
  defaultRegistry : unknown;
  defaultAccess : unknown;
  defaultProvenance : unknown
}.

(** Their initial values (lines 52-55). *)
Definition initialDefaults (manifest : PackageManifest) : Defaults :=
  {| defaultTag := Str TAG_LATEST;
     defaultRegistry := Str REGISTRY_NPM;
     defaultAccess :=
       if is_undefined (scope manifest) then Str ACCESS_PUBLIC else Undefined;
     defaultProvenance := Bool false |}.

(** Their values after the conditional update from [publishConfig]
    (lines 58-66). *)
Definition resolveDefaults (manifest : PackageManifest) (options : Options)
  : Defaults :=
  let d := initialDefaults manifest in
  if is_nullish (Raw.forceCommandLineOptions options)
     || negb (ToBoolean (Raw.forceCommandLineOptions options))
  then
    {| defaultTag :=
         coalesce (publishConfig_field manifest PublishConfig.tag) (defaultTag d);
       defaultRegistry :=
         coalesce (publishConfig_field manifest PublishConfig.registry)
                  (defaultRegistry d);
       defaultAccess :=
         coalesce (publishConfig_field manifest PublishConfig.access)
                  (defaultAccess d);
       defaultProvenance :=
         coalesce (publishConfig_field manifest PublishConfig.provenance)
                  (defaultProvenance d) |}
  else d.

(** The returned object literal (lines 68-79): its property values are
    evaluated in the order they are written, and the first one that throws
    ends the call. *)
Definition normalizeOptions (host : Host) (manifest : PackageManifest)
  (options : Options) : Completion NormalizedOptions :=
  let d := resolveDefaults manifest options in
  token <- validateToken (Raw.token options) ;;
  registry <- validateRegistry host
                (coalesce (Raw.registry options) (defaultRegistry d)) ;;
  tag <- setValue (Raw.tag options) (defaultTag d) validateTag ;;
  access <- setValue (Raw.access options) (defaultAccess d) validateAccess ;;
  provenance <- setValue (Raw.provenance options) (defaultProvenance d) Boolean ;;
  ignoreScripts <- setValue (Raw.ignoreScripts options) (Bool true) Boolean ;;
  dryRun <- setValue (Raw.dryRun options) (Bool false) Boolean ;;
  strategy <- setValue (Raw.strategy options) (Str STRATEGY_ALL) validateStrategy ;;
  Return {| Out.registry := registry;
            Out.token := token;
            Out.tag := tag;
            Out.access := access;
            Out.provenance := provenance;
            Out.ignoreScripts := ignoreScripts;
            Out.dryRun := dryRun;
            Out.strategy := strategy;
            Out.logger := Raw.logger options;
            Out.temporaryDirectory :=
              coalesce (Raw.temporaryDirectory options) (Str (os_tmpdir host)) |}.

(** ** Scenario data *)

(** [s.startsWith(p)] *)
Definition starts_with (p s : js_string) : bool :=
  js_string_eqb (firstn (List.length p) s) p.

(** A host to run the scenarios on.  Its [URL] constructor takes a [URL]
    object as it is and a string that starts with [http://] or [https://];
    its temporary directory is [/tmp].  It only instantiates examples: every
    theorem below holds for any host. *)
Definition scenario_host : Host :=
  {| new_URL := fun v =>
       match v with
       | UrlObj u => Some u
       | Str s =>
           if starts_with (lit "https://") s || starts_with (lit "http://") s
           then Some (mkURL s) else None
       | _ => None
       end;
     os_tmpdir := lit "/tmp" |}.

(** The manifest with the given scope and no [publishConfig]. *)
Definition manifest_of_scope (s : unknown) : PackageManifest :=
  {| scope := s; publishConfig := None |}.

(** The options [{token: t}], every other field absent, and the same
    options with the tag or the force flag set. *)
Definition options_token (t : unknown) : Options :=
  {| Raw.token := t; Raw.registry := Undefined; Raw.tag := Undefined;
     Raw.access := Undefined; Raw.provenance := Undefined;
     Raw.ignoreScripts := Undefined; Raw.dryRun := Undefined;
     Raw.strategy := Undefined; Raw.logger := Undefined;
     Raw.temporaryDirectory := Undefined;
     Raw.forceCommandLineOptions := Undefined |}.

Definition with_tag (t : unknown) (o : Options) : Options :=
  {| Raw.token := Raw.token o; Raw.registry := Raw.registry o; Raw.tag := t;
     Raw.access := Raw.access o; Raw.provenance := Raw.provenance o;
     Raw.ignoreScripts := Raw.ignoreScripts o; Raw.dryRun := Raw.dryRun o;
     Raw.strategy := Raw.strategy o; Raw.logger := Raw.logger o;
     Raw.temporaryDirectory := Raw.temporaryDirectory o;
     Raw.forceCommandLineOptions := Raw.forceCommandLineOptions o |}.

Definition with_force (f : unknown) (o : Options) : Options :=
  {| Raw.token := Raw.token o; Raw.registry := Raw.registry o;
     Raw.tag := Raw.tag o;
     Raw.access := Raw.access o; Raw.provenance := Raw.provenance o;
     Raw.ignoreScripts := Raw.ignoreScripts o; Raw.dryRun := Raw.dryRun o;
     Raw.strategy := Raw.strategy o; Raw.logger := Raw.logger o;
     Raw.temporaryDirectory := Raw.temporaryDirectory o;
     Raw.forceCommandLineOptions := f |}.

(** The options with token ["abc"] and every tracked option [null]. *)
Definition options_all_null : Options :=
  {| Raw.token := Str (lit "abc"); Raw.registry := Undefined; Raw.tag := Null;
     Raw.access := Null; Raw.provenance := Null;
     Raw.ignoreScripts := Null; Raw.dryRun := Null;
     Raw.strategy := Null; Raw.logger := Undefined;
     Raw.temporaryDirectory := Undefined;
     Raw.forceCommandLineOptions := Undefined |}.

(** A scoped manifest whose [publishConfig] sets tag, access and
    provenance. *)
Definition manifest_next : PackageManifest :=
  {| scope := Str (lit "@acme");
     publishConfig :=
       Some {| PublishConfig.tag := Str (lit "next");
               PublishConfig.registry := Undefined;
               PublishConfig.access := Str ACCESS_RESTRICTED;
               PublishConfig.provenance := Bool true |} |}.

(** The options [{token: "abc", tag: "beta "}]. *)
Definition options_beta : Options :=
  with_tag (Str (lit "beta ")) (options_token (Str (lit "abc"))).

(** The options [{token: "", tag: "a b"}]: token and tag are both invalid. *)
Definition options_bad_token_and_tag : Options :=
  with_tag (Str (lit "a b")) (options_token (Str [])).

(** The manifest [{scope: "@acme", publishConfig: {access: "public"}}]. *)
Definition manifest_scoped_public : PackageManifest :=
  {| scope := Str (lit "@acme");
     publishConfig :=
       Some {| PublishConfig.tag := Undefined;
               PublishConfig.registry := Undefined;
               PublishConfig.access := Str ACCESS_PUBLIC;
               PublishConfig.provenance := Undefined |} |}.

(** The manifest [{publishConfig: {access: "restricted"}}], without scope. *)
Definition manifest_unscoped_restricted : PackageManifest :=
  {| scope := Undefined;
     publishConfig :=
       Some {| PublishConfig.tag := Undefined;
               PublishConfig.registry := Undefined;
               PublishConfig.access := Str ACCESS_RESTRICTED;
               PublishConfig.provenance := Undefined |} |}.

(** The options [{token: "abc", access: "invalid"}]. *)
Definition options_invalid_access : Options :=
  {| Raw.token := Str (lit "abc"); Raw.registry := Undefined;
     Raw.tag := Undefined; Raw.access := Str (lit "invalid");
     Raw.provenance := Undefined; Raw.ignoreScripts := Undefined;
     Raw.dryRun := Undefined; Raw.strategy := Undefined;
     Raw.logger := Undefined; Raw.temporaryDirectory := Undefined;
     Raw.forceCommandLineOptions := Undefined |}.

(** The options [{token: "abc"}] with values of every kind in the fields
    that no validator looks at. *)
Definition options_unchecked_noise : Options :=
  {| Raw.token := Str (lit "abc"); Raw.registry := Undefined;
     Raw.tag := Undefined; Raw.access := Undefined;
     Raw.provenance := Str (lit "false"); Raw.ignoreScripts := Number PrimFloat.zero;
     Raw.dryRun := Object 1; Raw.strategy := Undefined;
     Raw.logger := Symbol 2; Raw.temporaryDirectory := Bool false;
     Raw.forceCommandLineOptions := Undefined |}.

(** The options that supply all four manifest-backed fields. *)
Definition options_all_supplied : Options :=
  {| Raw.token := Str (lit "abc");
     Raw.registry := Str (lit "https://example.com/");
     Raw.tag := Str (lit "beta"); Raw.access := Str ACCESS_PUBLIC;
     Raw.provenance := Bool false; Raw.ignoreScripts := Undefined;
     Raw.dryRun := Undefined; Raw.strategy := Str STRATEGY_UPGRADE;
     Raw.logger := Undefined; Raw.temporaryDirectory := Undefined;
     Raw.forceCommandLineOptions := Undefined |}.

Definition with_registry (v : unknown) (o : Options) : Options :=
  {| Raw.token := Raw.token o; Raw.registry := v; Raw.tag := Raw.tag o;
     Raw.access := Raw.access o; Raw.provenance := Raw.provenance o;
     Raw.ignoreScripts := Raw.ignoreScripts o; Raw.dryRun := Raw.dryRun o;
     Raw.strategy := Raw.strategy o; Raw.logger := Raw.logger o;
     Raw.temporaryDirectory := Raw.temporaryDirectory o;
     Raw.forceCommandLineOptions := Raw.forceCommandLineOptions o |}.

(** A manifest whose [publishConfig] holds an invalid tag and access. *)
Definition manifest_broken : PackageManifest :=
  {| scope := Undefined;
     publishConfig :=
       Some {| PublishConfig.tag := Str (lit "a b");
               PublishConfig.registry := Str (lit "not a url");
               PublishConfig.access := Str (lit "Public");
               PublishConfig.provenance := Null |} |}.

(** A completion that returned. *)
Definition passes {A : Type} (c : Completion A) : Prop :=
  exists a : A, c = Return a.

(** Two option records that agree on the fields a validator reads and on
    the force flag. *)
Definition same_checked_fields (o o' : Options) : Prop :=
  Raw.token o = Raw.token o'
  /\ Raw.registry o = Raw.registry o'
  /\ Raw.tag o = Raw.tag o'
  /\ Raw.access o = Raw.access o'
  /\ Raw.strategy o = Raw.strategy o'
  /\ Raw.forceCommandLineOptions o = Raw.forceCommandLineOptions o'.

(** The first of the candidates that is neither [undefined] nor [null], or
    the fallback: a chain of [??]. *)
Fixpoint first_supplied (candidates : list unknown) (fallback : unknown)
  : unknown :=
  match candidates with
  | [] => fallback
  | v :: rest => if is_nullish v then first_supplied rest fallback else v
  end.

(** What the manifest contributes for a field: its [publishConfig] value,
    unless [forceCommandLineOptions] is truthy. *)
Definition manifest_candidates (m : PackageManifest) (o : Options)
  (field : PackagePublishConfig -> unknown) : list unknown :=
  if ToBoolean (Raw.forceCommandLineOptions o) then []
  else [publishConfig_field m field].

(** ** The assembly in the words of the specification *)

(** A function applied to the returned value, if there is one. *)
Definition fmap {A B : Type} (f : A -> B) (c : Completion A) : Completion B :=
  x <- c ;; Return (f x).

(** The assembly as the specification words it: the eight checks, in the
    order the fields are declared, each on the raw value merged with its
    resolved default, and the first failure among them. *)
Definition void {A : Type} (c : Completion A) : Completion unit :=
  fmap (fun _ => tt) c.

Definition checks_in_order (host : Host) (m : PackageManifest) (o : Options)
  : list (Completion unit) :=
  let d := resolveDefaults m o in
  [ void (validateToken (Raw.token o));
    void (validateRegistry host (coalesce (Raw.registry o) (defaultRegistry d)));
    void (validateTag (coalesce (Raw.tag o) (defaultTag d)));
    void (validateAccess (coalesce (Raw.access o) (defaultAccess d)));
    void (Boolean (coalesce (Raw.provenance o) (defaultProvenance d)));
    void (Boolean (coalesce (Raw.ignoreScripts o) (Bool true)));
    void (Boolean (coalesce (Raw.dryRun o) (Bool false)));
    void (validateStrategy (coalesce (Raw.strategy o) (Str STRATEGY_ALL))) ].

Fixpoint first_failure (cs : list (Completion unit)) : option Error :=
  match cs with
  | [] => None
  | Return _ :: rest => first_failure rest
  | Throw e :: _ => Some e
  end.

(** ** The built-ins on sample strings *)

Example trim_beta : trim (lit "  beta ") = lit "beta".
Proof. reflexivity. Qed.

Example truthy_nan : ToBoolean (Number PrimFloat.nan) = false.
Proof. reflexivity. Qed.

Example encode_space : encodeURIComponent (lit "a b/c") = Return (lit "a%20b%2Fc").
Proof. reflexivity. Qed.

(* e-acute U+00E9, euro sign U+20AC, U+1F600 as a surrogate pair *)
Example encode_utf8 :
  encodeURIComponent [0xE9; 0x20AC; 0xD83D; 0xDE00]%N
  = Return (lit "%C3%A9%E2%82%AC%F0%9F%98%80").
Proof. reflexivity. Qed.

Example encode_lone : encodeURIComponent [0x61; 0xD800; 0x62]%N = Throw URIError.
Proof. reflexivity. Qed.

(** ** Basic facts *)

Lemma js_string_eqb_eq (s t : js_string) : js_string_eqb s t = true <-> s = t.
Proof.
  unfold js_string_eqb. destruct (list_eq_dec N.eq_dec s t); split; congruence.
Qed.

Lemma js_string_eqb_refl (s : js_string) : js_string_eqb s s = true.
Proof. now apply js_string_eqb_eq. Qed.

Lemma is_undefined_true (v : unknown) : is_undefined v = true <-> v = Undefined.
Proof. destruct v; simpl; split; congruence. Qed.

Lemma length_pos_nonempty (s : js_string) :
  Nat.ltb 0 (List.length s) = true <-> s <> [].
Proof.
  destruct s as [|c r]; simpl; split; intro H.
  - discriminate.
  - now elim H.
  - discriminate.
  - reflexivity.
Qed.

Lemma bind_Return {A B : Type} (c : Completion A) (k : A -> Completion B) (b : B) :
  bind c k = Return b -> exists a, c = Return a /\ k a = Return b.
Proof. destruct c; simpl; intro H; [eauto | discriminate]. Qed.

Lemma bind_Throw {A B : Type} (c : Completion A) (k : A -> Completion B) (e : Error) :
  bind c k = Throw e ->
  c = Throw e \/ exists a, c = Return a /\ k a = Throw e.
Proof. destruct c; simpl; intro H; [right; eauto | left; congruence]. Qed.

Lemma setValue_Return {T : Type} (v d : unknown)
  (validate : unknown -> Completion T) (cv : ConfigValue T) :
  setValue v d validate = Return cv ->
  validate (coalesce v d) = Return (value cv) /\ isDefault cv = is_undefined v.
Proof.
  unfold setValue. intro H. apply bind_Return in H as (x & Hx & Hr).
  injection Hr as <-. simpl. now split.
Qed.

(** The access validator returns its argument, narrowed. *)
Lemma validateAccess_Return (v : unknown) (a : option Access) :
  validateAccess v = Return a -> Access_value a = v.
Proof.
  unfold validateAccess.
  destruct v; simpl; try discriminate.
  - now intros [= <-].
  - destruct (js_string_eqb s ACCESS_PUBLIC) eqn:Hp.
    + apply js_string_eqb_eq in Hp. subst s. now intros [= <-].
    + destruct (js_string_eqb s ACCESS_RESTRICTED) eqn:Hr; [|discriminate].
      apply js_string_eqb_eq in Hr. subst s. now intros [= <-].
Qed.

(** ** The tag validator *)

(** When the validator returns, it returns its argument, which is a string
    whose trimmed form is not empty and is its own encoding. *)
Lemma validateTag_Return (v : unknown) (s : js_string) :
  validateTag v = Return s <->
  v = Str s /\ trim s <> [] /\ encodeURIComponent (trim s) = Return (trim s).
Proof.
  split.
  - destruct v; simpl; try discriminate.
    destruct (encodeURIComponent (trim s0)) as [enc|e] eqn:He; simpl; try discriminate.
    destruct (Nat.ltb 0 (List.length (trim s0))) eqn:Hl; simpl; try discriminate.
    destruct (js_string_eqb (trim s0) enc) eqn:Hq; try discriminate.
    intro H. injection H as ->.
    apply js_string_eqb_eq in Hq. subst enc.
    apply length_pos_nonempty in Hl. auto.
  - intros (-> & Hne & He). simpl. rewrite He. simpl.
    apply length_pos_nonempty in Hne. rewrite Hne, js_string_eqb_refl.
    reflexivity.
Qed.

(** The only error [encodeURIComponent] throws is [URIError]. *)
Lemma encodeURIComponent_Throw (s : js_string) (e : Error) :
  encodeURIComponent s = Throw e -> e = URIError.
Proof.
  remember (List.length s) as n eqn:Hn.
  assert (Hle : (List.length s <= n)%nat) by lia. clear Hn.
  revert s Hle. induction n as [|n IH]; intros s Hle H.
  - destruct s; simpl in *; [discriminate | lia].
  - destruct s as [|c rest]; simpl in *; [discriminate|].
    destruct (is_unescaped c).
    + apply bind_Throw in H as [H | (a & _ & H)]; [|discriminate].
      apply (IH rest); [lia | assumption].
    + destruct (is_trailing_surrogate c); [congruence|].
      destruct (is_leading_surrogate c).
      * destruct rest as [|d rest']; [congruence|].
        destruct (is_trailing_surrogate d); [|congruence].
        apply bind_Throw in H as [H | (a & _ & H)]; [|discriminate].
        apply (IH rest'); [simpl in Hle; lia | assumption].
      * apply bind_Throw in H as [H | (a & _ & H)]; [|discriminate].
        apply (IH rest); [lia | assumption].
Qed.

(** Every outcome of the tag validator: it returns its argument, or throws
    [InvalidTagError] with its argument, or lets the [URIError] of
    [encodeURIComponent] through. *)
Lemma validateTag_cases (v : unknown) :
  match validateTag v with
  | Return s => v = Str s
  | Throw e =>
      e = InvalidTagError v
      \/ (e = URIError /\
          exists s, v = Str s /\ encodeURIComponent (trim s) = Throw URIError)
  end.
Proof.
  destruct v; simpl; auto.
  destruct (encodeURIComponent (trim s)) as [enc|e] eqn:He; simpl.
  - destruct (_ && _); auto.
  - right. pose proof (encodeURIComponent_Throw _ He) as ->. eauto.
Qed.

(** ** Claims on the validators *)

(** C7: for every non-empty string the token validator returns that string
    unchanged; for the empty string and for any value that is not a string
    it throws [InvalidTokenError]. *)
Theorem validateToken_spec :
  forall v : unknown,
    (forall s, v = Str s -> s <> [] -> validateToken v = Return s)
    /\ (v = Str [] \/ is_string v = false ->
        validateToken v = Throw InvalidTokenError).
Proof.
  intro v. split.
  - intros s -> Hs. simpl.
    apply length_pos_nonempty in Hs. now rewrite Hs.
  - intros [-> | Hv]; [reflexivity|].
    destruct v; simpl in *; try reflexivity. discriminate.
Qed.

Lemma validateToken_spec_witness :
  validateToken (Str (lit "abc")) = Return (lit "abc")
  /\ validateToken (Str []) = Throw InvalidTokenError
  /\ validateToken (Number PrimFloat.one) = Throw InvalidTokenError.
Proof.
  split; [|split].
  - apply (proj1 (validateToken_spec (Str (lit "abc"))) (lit "abc")).
    + reflexivity.
    + discriminate.
  - apply (proj2 (validateToken_spec (Str []))). left. reflexivity.
  - apply (proj2 (validateToken_spec (Number PrimFloat.one))). right. reflexivity.
Defined.

(** C8: tag validation is idempotent on valid inputs: when the validator
    accepts [x], applying it to its own result succeeds with the same
    string, so [validateTag (validateTag x)] equals [validateTag x]. *)
Theorem validateTag_idempotent :
  forall (x : unknown) (s : js_string),
    validateTag x = Return s ->
    validateTag (Str s) = Return s
    /\ (y <- validateTag x ;; validateTag (Str y)) = validateTag x.
Proof.
  intros x s H.
  assert (Hs : validateTag (Str s) = Return s).
  { apply validateTag_Return in H as (_ & Hne & He).
    apply validateTag_Return. auto. }
  split; [exact Hs|].
  rewrite H. simpl bind. exact Hs.
Qed.

Lemma validateTag_idempotent_witness :
  validateTag (Str (lit " next ")) = Return (lit " next ")
  /\ (y <- validateTag (Str (lit " next ")) ;; validateTag (Str y))
     = validateTag (Str (lit " next ")).
Proof.
  split.
  - reflexivity.
  - apply (validateTag_idempotent (Str (lit " next ")) (s := lit " next ")).
    reflexivity.
Defined.

(** C3: the tag validator on a string whose trimmed form holds an unpaired
    surrogate: [encodeURIComponent] throws [URIError] there, and the
    validator lets it through, so the error is not the [InvalidTagError]
    carrying the value that the claim gives for every rejected input. *)
Theorem validateTag_unpaired_surrogate :
  forall s : js_string,
    encodeURIComponent (trim s) = Throw URIError ->
    validateTag (Str s) = Throw URIError
    /\ validateTag (Str s) <> Throw (InvalidTagError (Str s)).
Proof.
  intros s H. simpl. rewrite H. simpl. split; [reflexivity | discriminate].
Qed.

Lemma validateTag_unpaired_surrogate_witness :
  validateTag (Str [0xD800%N]) = Throw URIError
  /\ validateTag (Str [0x20; 0x76; 0xDC00; 0x31]%N) = Throw URIError.
Proof.
  split.
  - apply (validateTag_unpaired_surrogate [0xD800%N]). reflexivity.
  - apply (validateTag_unpaired_surrogate [0x20; 0x76; 0xDC00; 0x31]%N).
    reflexivity.
Defined.

(** Apart from that case the validator is as specified: for every [x] whose
    trimmed form [encodeURIComponent] can encode, the validator returns [x]
    exactly when [x] is a string whose trimmed form is not empty and equals
    its encoding, and throws [InvalidTagError] with [x] otherwise. *)
Theorem validateTag_spec_encodable :
  forall x : unknown,
    (forall s, x = Str s -> encodeURIComponent (trim s) <> Throw URIError) ->
    (forall s, validateTag x = Return s <->
               x = Str s /\ trim s <> []
               /\ encodeURIComponent (trim s) = Return (trim s))
    /\ ((forall s, validateTag x <> Return s) ->
        validateTag x = Throw (InvalidTagError x)).
Proof.
  intros x Henc. split.
  - intro s. apply validateTag_Return.
  - intro Hno. pose proof (validateTag_cases x) as Hc.
    destruct (validateTag x) as [s|e].
    + now elim (Hno s).
    + destruct Hc as [-> | (_ & s & -> & He)]; [reflexivity|].
      now elim (Henc s eq_refl).
Qed.

Lemma validateTag_spec_encodable_witness :
  validateTag (Str (lit "a b")) = Throw (InvalidTagError (Str (lit "a b")))
  /\ validateTag Null = Throw (InvalidTagError Null).
Proof.
  split.
  - apply (validateTag_spec_encodable (x := Str (lit "a b"))).
    + intros s [= <-]. discriminate.
    + intros s. discriminate.
  - apply (validateTag_spec_encodable (x := Null)).
    + intros s. discriminate.
    + intros s. discriminate.
Defined.

(** ** The normaliser, step by step *)

(** What a returned record says about each step of the call. *)
Lemma normalizeOptions_Return (host : Host) (m : PackageManifest) (o : Options)
  (r : NormalizedOptions) :
  normalizeOptions host m o = Return r ->
  validateToken (Raw.token o) = Return (Out.token r)
  /\ validateRegistry host
       (coalesce (Raw.registry o) (defaultRegistry (resolveDefaults m o)))
     = Return (Out.registry r)
  /\ setValue (Raw.tag o) (defaultTag (resolveDefaults m o)) validateTag
     = Return (Out.tag r)
  /\ setValue (Raw.access o) (defaultAccess (resolveDefaults m o)) validateAccess
     = Return (Out.access r)
  /\ setValue (Raw.provenance o) (defaultProvenance (resolveDefaults m o)) Boolean
     = Return (Out.provenance r)
  /\ setValue (Raw.ignoreScripts o) (Bool true) Boolean
     = Return (Out.ignoreScripts r)
  /\ setValue (Raw.dryRun o) (Bool false) Boolean = Return (Out.dryRun r)
  /\ setValue (Raw.strategy o) (Str STRATEGY_ALL) validateStrategy
     = Return (Out.strategy r)
  /\ Out.logger r = Raw.logger o
  /\ Out.temporaryDirectory r
     = coalesce (Raw.temporaryDirectory o) (Str (os_tmpdir host)).
Proof.
  unfold normalizeOptions. intro H.
  apply bind_Return in H as (token & Htoken & H).
  apply bind_Return in H as (registry & Hregistry & H).
  apply bind_Return in H as (tag & Htag & H).
  apply bind_Return in H as (access & Haccess & H).
  apply bind_Return in H as (provenance & Hprovenance & H).
  apply bind_Return in H as (ignoreScripts & HignoreScripts & H).
  apply bind_Return in H as (dryRun & HdryRun & H).
  apply bind_Return in H as (strategy & Hstrategy & H).
  injection H as <-. simpl.
  repeat split; assumption.
Qed.

Lemma truthy_not_nullish (v : unknown) :
  ToBoolean v = true -> is_nullish v || negb (ToBoolean v) = false.
Proof. intro H. rewrite H. destruct v; simpl in *; congruence. Qed.

Lemma falsy_takes_manifest (v : unknown) :
  ToBoolean v = false -> is_nullish v || negb (ToBoolean v) = true.
Proof. intro H. rewrite H. apply orb_true_r. Qed.

(** With a truthy [forceCommandLineOptions] the update from [publishConfig]
    is skipped. *)
Lemma resolveDefaults_force (m : PackageManifest) (o : Options) :
  ToBoolean (Raw.forceCommandLineOptions o) = true ->
  resolveDefaults m o = initialDefaults m.
Proof.
  intro H. unfold resolveDefaults. now rewrite (truthy_not_nullish _ H).
Qed.

(** ** Claims on default tracking *)

(** C4: in the record a successful call returns, the [isDefault] flag of
    each of [tag], [access], [provenance], [ignoreScripts], [dryRun] and
    [strategy] is true if and only if the raw option was [undefined],
    whatever value was supplied otherwise. *)
Theorem isDefault_iff_undefined :
  forall (host : Host) (m : PackageManifest) (o : Options) (r : NormalizedOptions),
    normalizeOptions host m o = Return r ->
    (isDefault (Out.tag r) = true <-> Raw.tag o = Undefined)
    /\ (isDefault (Out.access r) = true <-> Raw.access o = Undefined)
    /\ (isDefault (Out.provenance r) = true <-> Raw.provenance o = Undefined)
    /\ (isDefault (Out.ignoreScripts r) = true <-> Raw.ignoreScripts o = Undefined)
    /\ (isDefault (Out.dryRun r) = true <-> Raw.dryRun o = Undefined)
    /\ (isDefault (Out.strategy r) = true <-> Raw.strategy o = Undefined).
Proof.
  intros host m o r H.
  apply normalizeOptions_Return in H
    as (_ & _ & Ht & Ha & Hp & Hi & Hd & Hs & _).
  apply setValue_Return in Ht as (_ & ->), Ha as (_ & ->), Hp as (_ & ->),
    Hi as (_ & ->), Hd as (_ & ->), Hs as (_ & ->).
  repeat split; apply is_undefined_true.
Qed.

(** The tag ["latest"] is supplied and equals the default: the flag is off. *)
Lemma isDefault_iff_undefined_witness :
  exists r : NormalizedOptions,
    normalizeOptions scenario_host (manifest_of_scope Undefined)
      (with_tag (Str TAG_LATEST) (options_token (Str (lit "abc")))) = Return r
    /\ Out.tag r = {| value := TAG_LATEST; isDefault := false |}
    /\ (isDefault (Out.tag r) = true <-> Str TAG_LATEST = Undefined)
    /\ (isDefault (Out.access r) = true <-> Undefined = Undefined :> unknown).
Proof.
  eexists. split; [reflexivity|]. split; [reflexivity|].
  pose proof (isDefault_iff_undefined scenario_host (manifest_of_scope Undefined)
                (with_tag (Str TAG_LATEST) (options_token (Str (lit "abc"))))
                eq_refl) as (Ht & Ha & _).
  split; [exact Ht | exact Ha].
Defined.

(** C9: when the raw value of a default-tracked option is [null], the
    default is what gets validated and the [isDefault] flag is false; so in
    the record of a successful call each such field holds the validated
    resolved default, flagged as not default. *)
Theorem null_takes_default_not_flag :
  forall (host : Host) (m : PackageManifest) (o : Options),
    (forall (T : Type) (d : unknown) (validate : unknown -> Completion T),
       setValue Null d validate
       = fmap (fun x => {| value := x; isDefault := false |}) (validate d))
    /\ (forall r : NormalizedOptions,
          normalizeOptions host m o = Return r ->
          (Raw.tag o = Null ->
           validateTag (defaultTag (resolveDefaults m o))
           = Return (value (Out.tag r))
           /\ isDefault (Out.tag r) = false)
          /\ (Raw.access o = Null ->
              validateAccess (defaultAccess (resolveDefaults m o))
              = Return (value (Out.access r))
              /\ isDefault (Out.access r) = false)
          /\ (Raw.provenance o = Null ->
              value (Out.provenance r)
              = ToBoolean (defaultProvenance (resolveDefaults m o))
              /\ isDefault (Out.provenance r) = false)
          /\ (Raw.ignoreScripts o = Null ->
              Out.ignoreScripts r = {| value := true; isDefault := false |})
          /\ (Raw.dryRun o = Null ->
              Out.dryRun r = {| value := false; isDefault := false |})
          /\ (Raw.strategy o = Null ->
              Out.strategy r = {| value := All; isDefault := false |})).
Proof.
  intros host m o. split; [reflexivity|].
  intros r H.
  apply normalizeOptions_Return in H
    as (_ & _ & Ht & Ha & Hp & Hi & Hd & Hs & _).
  repeat apply conj; intro Hn; rewrite Hn in *.
  - apply setValue_Return in Ht as (Ht & ->). now split.
  - apply setValue_Return in Ha as (Ha & ->). now split.
  - apply setValue_Return in Hp as (Hp & ->).
    unfold Boolean, coalesce in Hp. simpl in Hp. injection Hp as Hp.
    split; [now symmetry | reflexivity].
  - unfold setValue in Hi. simpl in Hi. congruence.
  - unfold setValue in Hd. simpl in Hd. congruence.
  - unfold setValue in Hs. simpl in Hs. congruence.
Qed.

Lemma null_takes_default_not_flag_witness :
  exists r : NormalizedOptions,
    normalizeOptions scenario_host manifest_next options_all_null = Return r
    /\ Out.tag r = {| value := lit "next"; isDefault := false |}
    /\ Out.access r = {| value := Some Restricted; isDefault := false |}
    /\ Out.provenance r = {| value := true; isDefault := false |}
    /\ Out.ignoreScripts r = {| value := true; isDefault := false |}
    /\ Out.dryRun r = {| value := false; isDefault := false |}
    /\ Out.strategy r = {| value := All; isDefault := false |}.
Proof.
  eexists. split; [reflexivity|].
  pose proof (proj2 (null_takes_default_not_flag scenario_host manifest_next
                       options_all_null) _ eq_refl)
    as (_ & _ & _ & Hi & Hd & Hs).
  split; [reflexivity|]. split; [reflexivity|]. split; [reflexivity|].
  split; [exact (Hi eq_refl)|]. split; [exact (Hd eq_refl) | exact (Hs eq_refl)].
Defined.

(** C10: when [ignoreScripts], [dryRun] and [strategy] are [undefined], a
    successful call returns them as [true], [false] and ["all"], each with
    [isDefault] true, for every manifest. *)
Theorem fixed_defaults :
  forall (host : Host) (m : PackageManifest) (o : Options) (r : NormalizedOptions),
    normalizeOptions host m o = Return r ->
    (Raw.ignoreScripts o = Undefined ->
     Out.ignoreScripts r = {| value := true; isDefault := true |})
    /\ (Raw.dryRun o = Undefined ->
        Out.dryRun r = {| value := false; isDefault := true |})
    /\ (Raw.strategy o = Undefined ->
        Out.strategy r = {| value := All; isDefault := true |}
        /\ Strategy_string (value (Out.strategy r)) = STRATEGY_ALL).
Proof.
  intros host m o r H.
  apply normalizeOptions_Return in H
    as (_ & _ & _ & _ & _ & Hi & Hd & Hs & _).
  repeat apply conj; intro Hn; rewrite Hn in *.
  - unfold setValue in Hi. simpl in Hi. congruence.
  - unfold setValue in Hd. simpl in Hd. congruence.
  - unfold setValue in Hs. simpl in Hs. injection Hs as <-. now split.
Qed.

Lemma fixed_defaults_witness :
  exists r : NormalizedOptions,
    normalizeOptions scenario_host manifest_next (options_token (Str (lit "abc")))
    = Return r
    /\ Out.ignoreScripts r = {| value := true; isDefault := true |}
    /\ Out.dryRun r = {| value := false; isDefault := true |}
    /\ Out.strategy r = {| value := All; isDefault := true |}.
Proof.
  eexists. split; [reflexivity|].
  pose proof (fixed_defaults scenario_host manifest_next
                (options_token (Str (lit "abc"))) eq_refl) as (Hi & Hd & Hs).
  split; [exact (Hi eq_refl)|].
  split; [exact (Hd eq_refl) | exact (proj1 (Hs eq_refl))].
Defined.

(** ** Claims on the resolved defaults *)

Lemma coalesce_nullish (v d : unknown) : is_nullish v = true -> coalesce v d = d.
Proof. unfold coalesce. now intros ->. Qed.

Lemma coalesce_supplied (v d : unknown) : is_nullish v = false -> coalesce v d = v.
Proof. unfold coalesce. now intros ->. Qed.

Lemma defaultAccess_falsy (m : PackageManifest) (o : Options) :
  ToBoolean (Raw.forceCommandLineOptions o) = false ->
  defaultAccess (resolveDefaults m o)
  = coalesce (publishConfig_field m PublishConfig.access)
      (if is_undefined (scope m) then Str ACCESS_PUBLIC else Undefined).
Proof.
  intro H. unfold resolveDefaults. now rewrite (falsy_takes_manifest _ H).
Qed.

(** C6 as stated fails: with [forceCommandLineOptions] unset and no access
    supplied by the user, the access does not follow from the scope alone,
    because an access in [manifest.publishConfig] replaces the scope-derived
    default (line 64 after line 54).  The scoped manifest
    [{scope: "@acme", publishConfig: {access: "public"}}] gives ["public"],
    not [undefined], and the unscoped manifest
    [{publishConfig: {access: "restricted"}}] gives ["restricted"], not
    ["public"]. *)
Lemma publishConfig_access_overrides_scope :
  defaultAccess
    (resolveDefaults manifest_scoped_public (options_token (Str (lit "abc"))))
  = Str ACCESS_PUBLIC
  /\ fmap Out.access
       (normalizeOptions scenario_host manifest_scoped_public
          (options_token (Str (lit "abc"))))
     = Return {| value := Some Public; isDefault := true |}
  /\ defaultAccess
       (resolveDefaults manifest_unscoped_restricted
          (options_token (Str (lit "abc"))))
     = Str ACCESS_RESTRICTED
  /\ fmap Out.access
       (normalizeOptions scenario_host manifest_unscoped_restricted
          (options_token (Str (lit "abc"))))
     = Return {| value := Some Restricted; isDefault := true |}.
Proof. repeat apply conj; reflexivity. Qed.

(** C6, amended: with [forceCommandLineOptions] unset (or falsy), no access
    supplied by the user and none by [publishConfig], the access of a
    successful call comes from the manifest's scope: unset ([undefined])
    when the manifest has a scope, ["public"] when it has none, with
    [isDefault] true.  The two scenarios, manifest [{scope: "@acme"}] and
    manifest [{}] with options [{token: "abc"}], return with these values on
    every host whose [URL] constructor takes the npm registry address. *)
Theorem access_default_from_scope :
  forall host : Host,
    (forall (m : PackageManifest) (o : Options) (r : NormalizedOptions),
       ToBoolean (Raw.forceCommandLineOptions o) = false ->
       Raw.access o = Undefined ->
       is_nullish (publishConfig_field m PublishConfig.access) = true ->
       normalizeOptions host m o = Return r ->
       Out.access r
       = {| value := if is_undefined (scope m) then Some Public else None;
            isDefault := true |})
    /\ (forall u : URL,
          new_URL host (Str REGISTRY_NPM) = Some u ->
          fmap Out.access
            (normalizeOptions host (manifest_of_scope (Str (lit "@acme")))
               (options_token (Str (lit "abc"))))
          = Return {| value := None; isDefault := true |}
          /\ fmap Out.access
               (normalizeOptions host (manifest_of_scope Undefined)
                  (options_token (Str (lit "abc"))))
             = Return {| value := Some Public; isDefault := true |}).
Proof.
  intro host. split.
  - intros m o r Hforce Hraw Hpc H.
    apply normalizeOptions_Return in H as (_ & _ & _ & Ha & _).
    rewrite (defaultAccess_falsy m o Hforce), Hraw in Ha.
    unfold setValue in Ha.
    rewrite (coalesce_nullish Undefined _ eq_refl), (coalesce_nullish _ _ Hpc) in Ha.
    destruct (is_undefined (scope m)); simpl in Ha; congruence.
  - intros u Hu. cbv in Hu. cbv. rewrite Hu. split; reflexivity.
Qed.

Lemma access_default_from_scope_witness :
  fmap Out.access
    (normalizeOptions scenario_host (manifest_of_scope (Str (lit "@acme")))
       (options_token (Str (lit "abc"))))
  = Return {| value := None; isDefault := true |}
  /\ fmap Out.access
       (normalizeOptions scenario_host (manifest_of_scope Undefined)
          (options_token (Str (lit "abc"))))
     = Return {| value := Some Public; isDefault := true |}.
Proof.
  apply (proj2 (access_default_from_scope scenario_host) (mkURL REGISTRY_NPM)).
  reflexivity.
Defined.

(** C1 as stated fails: with [forceCommandLineOptions] true and no access
    supplied, the default access still follows [manifest.scope], which is
    read before the flag is looked at: ["public"] for the manifest [{}],
    [undefined] for [{scope: "@acme"}]. *)
Lemma force_access_follows_scope :
  defaultAccess
    (resolveDefaults (manifest_of_scope Undefined)
       (with_force (Bool true) (options_token (Str (lit "abc")))))
  = Str ACCESS_PUBLIC
  /\ defaultAccess
       (resolveDefaults (manifest_of_scope (Str (lit "@acme")))
          (with_force (Bool true) (options_token (Str (lit "abc")))))
     = Undefined
  /\ fmap Out.access
       (normalizeOptions scenario_host (manifest_of_scope Undefined)
          (with_force (Bool true) (options_token (Str (lit "abc")))))
     = Return {| value := Some Public; isDefault := true |}
  /\ fmap Out.access
       (normalizeOptions scenario_host (manifest_of_scope (Str (lit "@acme")))
          (with_force (Bool true) (options_token (Str (lit "abc")))))
     = Return {| value := None; isDefault := true |}.
Proof. repeat apply conj; reflexivity. Qed.

(** C1, amended: when [forceCommandLineOptions] is truthy, the defaults of
    tag, registry and provenance are the constants ["latest"], the npm
    registry address and [false]; the default access is ["public"] when
    [manifest.scope] is undefined and [undefined] otherwise; and nothing of
    [manifest.publishConfig] reaches the result. *)
Theorem force_ignores_publishConfig :
  forall (host : Host) (m : PackageManifest) (o : Options),
    ToBoolean (Raw.forceCommandLineOptions o) = true ->
    resolveDefaults m o
    = {| defaultTag := Str TAG_LATEST;
         defaultRegistry := Str REGISTRY_NPM;
         defaultAccess :=
           if is_undefined (scope m) then Str ACCESS_PUBLIC else Undefined;
         defaultProvenance := Bool false |}
    /\ (forall pc : option PackagePublishConfig,
          normalizeOptions host {| scope := scope m; publishConfig := pc |} o
          = normalizeOptions host m o).
Proof.
  intros host m o H. split.
  - now rewrite (resolveDefaults_force m o H).
  - intro pc. unfold normalizeOptions.
    now rewrite !(resolveDefaults_force _ o H).
Qed.

Lemma force_ignores_publishConfig_witness :
  resolveDefaults manifest_next
    (with_force (Bool true) (options_token (Str (lit "abc"))))
  = {| defaultTag := Str TAG_LATEST;
       defaultRegistry := Str REGISTRY_NPM;
       defaultAccess := Undefined;
       defaultProvenance := Bool false |}
  /\ normalizeOptions scenario_host (manifest_of_scope (Str (lit "@acme")))
       (with_force (Bool true) (options_token (Str (lit "abc"))))
     = normalizeOptions scenario_host manifest_next
         (with_force (Bool true) (options_token (Str (lit "abc"))))
  /\ fmap Out.tag
       (normalizeOptions scenario_host manifest_next
          (with_force (Bool true) (options_token (Str (lit "abc")))))
     = Return {| value := TAG_LATEST; isDefault := true |}.
Proof.
  pose proof (force_ignores_publishConfig scenario_host manifest_next
                (with_force (Bool true) (options_token (Str (lit "abc"))))
                eq_refl) as (Hd & Hpc).
  split; [exact Hd|]. split; [exact (Hpc None) | reflexivity].
Defined.

(** ** Claims on the order of validation *)

(** Each validator throws the error of its own field. *)
Lemma validateToken_Throw (v : unknown) (e : Error) :
  validateToken v = Throw e -> e = InvalidTokenError.
Proof.
  destruct v; simpl; try congruence.
  destruct (Nat.ltb 0 (List.length s)); congruence.
Qed.

Lemma validateRegistry_Throw (host : Host) (v : unknown) (e : Error) :
  validateRegistry host v = Throw e -> e = InvalidRegistryUrlError v.
Proof. unfold validateRegistry. destruct (new_URL host v); congruence. Qed.

Lemma validateAccess_Throw (v : unknown) (e : Error) :
  validateAccess v = Throw e -> e = InvalidAccessError v.
Proof.
  unfold validateAccess.
  destruct (is_undefined v); [discriminate|].
  destruct (strict_eq_str v ACCESS_PUBLIC); [discriminate|].
  destruct (strict_eq_str v ACCESS_RESTRICTED); congruence.
Qed.

Lemma validateStrategy_Throw (v : unknown) (e : Error) :
  validateStrategy v = Throw e -> e = InvalidStrategyError v.
Proof.
  unfold validateStrategy.
  destruct (strict_eq_str v STRATEGY_ALL); [discriminate|].
  destruct (strict_eq_str v STRATEGY_UPGRADE); congruence.
Qed.

Lemma setValue_Throw {T : Type} (v d : unknown)
  (validate : unknown -> Completion T) (e : Error) :
  setValue v d validate = Throw e -> validate (coalesce v d) = Throw e.
Proof.
  unfold setValue. intro H.
  apply bind_Throw in H as [H | (a & _ & H)]; [assumption | discriminate].
Qed.

Lemma setValue_Boolean_Return (v d : unknown) :
  setValue v d Boolean
  = Return {| value := ToBoolean (coalesce v d); isDefault := is_undefined v |}.
Proof. reflexivity. Qed.

(** C2 as stated fails: the validator accepts ["beta "], and the call with
    options [{token: "abc", tag: "beta "}] on the manifest [{}] returns. *)
Lemma beta_trailing_space_returns :
  validateTag (Str (lit "beta ")) = Return (lit "beta ")
  /\ normalizeOptions scenario_host (manifest_of_scope Undefined) options_beta
     = Return
         {| Out.registry := mkURL REGISTRY_NPM;
            Out.token := lit "abc";
            Out.tag := {| value := lit "beta "; isDefault := false |};
            Out.access := {| value := Some Public; isDefault := true |};
            Out.provenance := {| value := false; isDefault := true |};
            Out.ignoreScripts := {| value := true; isDefault := true |};
            Out.dryRun := {| value := false; isDefault := true |};
            Out.strategy := {| value := All; isDefault := true |};
            Out.logger := Undefined;
            Out.temporaryDirectory := Str (lit "/tmp") |}.
Proof. split; reflexivity. Qed.

Lemma setValue_beta (d : unknown) :
  setValue (Str (lit "beta ")) d validateTag
  = Return {| value := lit "beta "; isDefault := false |}.
Proof. reflexivity. Qed.

(** C2, amended: for the options [{token: "abc", tag: "beta "}] and any
    manifest, the tag validator accepts ["beta "] (its trimmed form ["beta"]
    is its own encoding) and returns it untrimmed; the call never throws
    [InvalidTagError]; when it returns, [tag.value] is ["beta "] with
    [isDefault] false; and it does return for the manifest [{}] on every
    host whose [URL] constructor takes the npm registry address. *)
Theorem beta_trailing_space_accepted :
  forall (host : Host) (m : PackageManifest),
    validateTag (Str (lit "beta ")) = Return (lit "beta ")
    /\ (forall v : unknown,
          normalizeOptions host m options_beta <> Throw (InvalidTagError v))
    /\ (forall r : NormalizedOptions,
          normalizeOptions host m options_beta = Return r ->
          Out.tag r = {| value := lit "beta "; isDefault := false |})
    /\ (forall u : URL,
          new_URL host (Str REGISTRY_NPM) = Some u ->
          fmap Out.tag
            (normalizeOptions host (manifest_of_scope Undefined) options_beta)
          = Return {| value := lit "beta "; isDefault := false |}).
Proof.
  intros host m. repeat apply conj.
  - reflexivity.
  - intros v H. unfold normalizeOptions in H.
    change (Raw.tag options_beta) with (Str (lit "beta ")) in H.
    rewrite setValue_beta in H.
    rewrite !setValue_Boolean_Return in H.
    apply bind_Throw in H as [H | (token & _ & H)].
    { apply validateToken_Throw in H. discriminate. }
    apply bind_Throw in H as [H | (registry & _ & H)].
    { apply validateRegistry_Throw in H. discriminate. }
    simpl bind in H.
    apply bind_Throw in H as [H | (access & _ & H)].
    { apply setValue_Throw, validateAccess_Throw in H. discriminate. }
    discriminate.
  - intros r H. apply normalizeOptions_Return in H as (_ & _ & Ht & _).
    change (Raw.tag options_beta) with (Str (lit "beta ")) in Ht.
    rewrite setValue_beta in Ht. congruence.
  - intros u Hu. cbv in Hu. cbv. rewrite Hu. reflexivity.
Qed.

Lemma beta_trailing_space_accepted_witness :
  fmap Out.tag
    (normalizeOptions scenario_host (manifest_of_scope Undefined) options_beta)
  = Return {| value := lit "beta "; isDefault := false |}.
Proof.
  apply (proj2 (proj2 (proj2
           (beta_trailing_space_accepted scenario_host (manifest_of_scope Undefined))))
           (mkURL REGISTRY_NPM)).
  reflexivity.
Defined.

(** C5: the call either returns a record or throws the error of the first
    check that fails, the checks being taken in the order token, registry,
    tag, access, provenance, ignoreScripts, dryRun, strategy; so when token
    and tag are both invalid the error is [InvalidTokenError]. *)
Theorem first_failure_in_declaration_order :
  forall (host : Host) (m : PackageManifest) (o : Options),
    match first_failure (checks_in_order host m o) with
    | Some e => normalizeOptions host m o = Throw e
    | None => exists r : NormalizedOptions, normalizeOptions host m o = Return r
    end
    /\ (forall e1 e2 : Error,
          validateToken (Raw.token o) = Throw e1 ->
          validateTag (coalesce (Raw.tag o) (defaultTag (resolveDefaults m o)))
          = Throw e2 ->
          normalizeOptions host m o = Throw InvalidTokenError).
Proof.
  intros host m o. split.
  - unfold normalizeOptions, checks_in_order, void, fmap, setValue, Boolean.
    destruct (validateToken _); simpl; [|reflexivity].
    destruct (validateRegistry _ _); simpl; [|reflexivity].
    destruct (validateTag _); simpl; [|reflexivity].
    destruct (validateAccess _); simpl; [|reflexivity].
    destruct (validateStrategy _); simpl; [|reflexivity].
    eexists. reflexivity.
  - intros e1 e2 Htoken _. unfold normalizeOptions.
    rewrite Htoken. simpl.
    now rewrite (validateToken_Throw _ Htoken).
Qed.

Lemma first_failure_in_declaration_order_witness :
  validateTag (Str (lit "a b")) = Throw (InvalidTagError (Str (lit "a b")))
  /\ normalizeOptions scenario_host (manifest_of_scope Undefined)
       options_bad_token_and_tag
     = Throw InvalidTokenError.
Proof.
  split; [reflexivity|].
  apply (proj2 (first_failure_in_declaration_order scenario_host
                  (manifest_of_scope Undefined) options_bad_token_and_tag)
           InvalidTokenError (InvalidTagError (Str (lit "a b"))));
    reflexivity.
Defined.

(** ** Which strings are their own encoding *)

Lemma escape_code_point_length (cp : N) :
  (3 <= List.length (escape_code_point cp))%nat.
Proof.
  unfold escape_code_point, utf8.
  destruct (cp <? 0x80)%N; [simpl; lia|].
  destruct (cp <? 0x800)%N; [simpl; lia|].
  destruct (cp <? 0x10000)%N; simpl; lia.
Qed.

(** Encoding never shortens a string. *)
Lemma encodeURIComponent_length (s r : js_string) :
  encodeURIComponent s = Return r -> (List.length s <= List.length r)%nat.
Proof.
  remember (List.length s) as n eqn:Hn.
  assert (Hle : (List.length s <= n)%nat) by lia.
  rewrite Hn. clear Hn.
  revert s r Hle. induction n as [|n IH]; intros s r Hle H.
  - destruct s; simpl in *; lia.
  - destruct s as [|c rest]; simpl in *; [lia|].
    destruct (is_unescaped c).
    + apply bind_Return in H as (a & Ha & [= <-]).
      apply IH in Ha; simpl; lia.
    + destruct (is_trailing_surrogate c); [discriminate|].
      destruct (is_leading_surrogate c).
      * destruct rest as [|d rest']; [discriminate|].
        destruct (is_trailing_surrogate d); [|discriminate].
        apply bind_Return in H as (a & Ha & [= <-]).
        apply IH in Ha; [|simpl in Hle; lia].
        pose proof (escape_code_point_length (surrogate_pair_to_code_point c d)).
        rewrite length_app. simpl. lia.
      * apply bind_Return in H as (a & Ha & [= <-]).
        apply IH in Ha; [|lia].
        pose proof (escape_code_point_length c).
        rewrite length_app. lia.
Qed.

(** A string is returned unchanged exactly when every unit of it is an
    unescaped one. *)
Lemma encodeURIComponent_fixed (s : js_string) :
  encodeURIComponent s = Return s <-> forallb is_unescaped s = true.
Proof.
  split.
  - induction s as [|c rest IH]; [reflexivity|]. simpl.
    destruct (is_unescaped c) eqn:Hc; simpl.
    + intro H. apply bind_Return in H as (a & Ha & [= <-]). auto.
    + destruct (is_trailing_surrogate c); [discriminate|].
      destruct (is_leading_surrogate c).
      * destruct rest as [|d rest']; [discriminate|].
        destruct (is_trailing_surrogate d); [|discriminate].
        intro H. apply bind_Return in H as (a & Ha & [= Heq]).
        apply encodeURIComponent_length in Ha.
        pose proof (escape_code_point_length (surrogate_pair_to_code_point c d)).
        apply (f_equal (@List.length _)) in Heq.
        rewrite length_app in Heq. simpl in Heq. lia.
      * intro H. apply bind_Return in H as (a & Ha & [= Heq]).
        apply encodeURIComponent_length in Ha.
        pose proof (escape_code_point_length c).
        apply (f_equal (@List.length _)) in Heq.
        rewrite length_app in Heq. simpl in Heq. lia.
  - induction s as [|c rest IH]; [reflexivity|]. simpl.
    intro H. apply andb_true_iff in H as (-> & Hrest).
    now rewrite (IH Hrest).
Qed.

(** The accepted tags, unit by unit: a string is accepted exactly when its
    trimmed form is not empty and holds only letters, digits and the marks
    [- _ . ! ~ * ' ( )]. *)
Theorem validateTag_accepts_unescaped :
  forall s : js_string,
    validateTag (Str s) = Return s <->
    trim s <> [] /\ forallb is_unescaped (trim s) = true.
Proof.
  intro s. rewrite validateTag_Return, encodeURIComponent_fixed.
  split.
  - intros (_ & Hne & Hu). now split.
  - intros (Hne & Hu). now repeat split.
Qed.

(** ** [trim] and padding *)

Lemma forallb_rev {A : Type} (f : A -> bool) (l : list A) :
  forallb f (rev l) = forallb f l.
Proof.
  induction l as [|a l IH]; [reflexivity|].
  simpl. rewrite forallb_app, IH. simpl.
  rewrite andb_true_r. apply andb_comm.
Qed.

(** What [trim_start] removes is a prefix of trimmed units. *)
Lemma trim_start_split (s : js_string) :
  exists pre, s = pre ++ trim_start s /\ forallb is_trimmed_unit pre = true.
Proof.
  induction s as [|c s (pre & Hs & Hpre)]; [now exists []|].
  simpl. destruct (is_trimmed_unit c) eqn:Hc.
  - exists (c :: pre). simpl. rewrite Hc, Hpre. now rewrite <- Hs.
  - now exists [].
Qed.

Lemma trim_start_padded (pre s : js_string) :
  forallb is_trimmed_unit pre = true -> trim_start (pre ++ s) = trim_start s.
Proof.
  induction pre as [|c pre IH]; [reflexivity|].
  simpl. intro H. apply andb_true_iff in H as (-> & H). auto.
Qed.

Lemma trim_start_blank (s : js_string) :
  trim_start s = [] <-> forallb is_trimmed_unit s = true.
Proof.
  induction s as [|c s IH]; [now split|].
  simpl. destruct (is_trimmed_unit c); simpl; [exact IH|].
  split; discriminate.
Qed.

Lemma trim_start_app (s post : js_string) :
  trim_start s <> [] -> trim_start (s ++ post) = trim_start s ++ post.
Proof.
  induction s as [|c s IH]; [now intros []|].
  simpl. destruct (is_trimmed_unit c); auto.
Qed.

Lemma trim_end_split (s : js_string) :
  exists post, s = trim_end s ++ post /\ forallb is_trimmed_unit post = true.
Proof.
  destruct (trim_start_split (rev s)) as (pre & Hs & Hpre).
  exists (rev pre). split.
  - unfold trim_end. rewrite <- rev_app_distr, <- Hs. now rewrite rev_involutive.
  - now rewrite forallb_rev.
Qed.

Lemma trim_end_padded (s post : js_string) :
  forallb is_trimmed_unit post = true -> trim_end (s ++ post) = trim_end s.
Proof.
  intro H. unfold trim_end. rewrite rev_app_distr.
  rewrite trim_start_padded; [reflexivity|]. now rewrite forallb_rev.
Qed.

(** Trimmed units around a string do not change its trimmed form. *)
Lemma trim_padded (pre s post : js_string) :
  forallb is_trimmed_unit pre = true ->
  forallb is_trimmed_unit post = true ->
  trim (pre ++ s ++ post) = trim s.
Proof.
  intros Hpre Hpost. unfold trim. rewrite trim_start_padded by assumption.
  destruct (trim_start s) as [|c t] eqn:Hs.
  - apply trim_start_blank in Hs.
    assert (Hb : trim_start (s ++ post) = []).
    { apply trim_start_blank. rewrite forallb_app, Hs, Hpost. reflexivity. }
    now rewrite Hb.
  - rewrite trim_start_app, Hs by (rewrite Hs; discriminate).
    now apply trim_end_padded.
Qed.

(** A string is its trimmed form between two runs of trimmed units. *)
Lemma trim_split (s : js_string) :
  exists pre post,
    s = pre ++ trim s ++ post
    /\ forallb is_trimmed_unit pre = true
    /\ forallb is_trimmed_unit post = true.
Proof.
  destruct (trim_start_split s) as (pre & Hs & Hpre).
  destruct (trim_end_split (trim_start s)) as (post & Ht & Hpost).
  exists pre, post. unfold trim. now rewrite <- Ht, <- Hs.
Qed.

Lemma trim_idempotent (s : js_string) : trim (trim s) = trim s.
Proof.
  destruct (trim_split s) as (pre & post & Hs & Hpre & Hpost).
  rewrite Hs at 2. symmetry. now apply trim_padded.
Qed.

Lemma trim_blank (s : js_string) :
  forallb is_trimmed_unit s = true -> trim s = [].
Proof.
  intro H. unfold trim. apply trim_start_blank in H. now rewrite H.
Qed.

(** ** More on the tag validator *)

Lemma coalesce_Str (s : js_string) (d : unknown) : coalesce (Str s) d = Str s.
Proof. reflexivity. Qed.

(** Trimmed units (white space, line terminators) before and after a tag
    never change whether it is accepted, and they stay in the returned value:
    the padded string is returned when the bare one is, and is rejected with
    the same kind of error otherwise. *)
Theorem validateTag_padding :
  forall pre s post : js_string,
    forallb is_trimmed_unit pre = true ->
    forallb is_trimmed_unit post = true ->
    validateTag (Str (pre ++ s ++ post))
    = match validateTag (Str s) with
      | Return _ => Return (pre ++ s ++ post)
      | Throw URIError => Throw URIError
      | Throw _ => Throw (InvalidTagError (Str (pre ++ s ++ post)))
      end.
Proof.
  intros pre s post Hpre Hpost. unfold validateTag.
  rewrite trim_padded by assumption.
  destruct (encodeURIComponent (trim s)) as [enc|e] eqn:He; simpl.
  - destruct (_ && _); reflexivity.
  - now rewrite (encodeURIComponent_Throw _ He).
Qed.

Lemma validateTag_padding_witness :
  validateTag (Str ([0x20; 0x0A]%N ++ lit "next" ++ [0x09]%N))
  = Return ([0x20; 0x0A]%N ++ lit "next" ++ [0x09]%N)
  /\ validateTag (Str ([0x20]%N ++ lit "a b" ++ [0xFEFF]%N))
     = Throw (InvalidTagError (Str ([0x20]%N ++ lit "a b" ++ [0xFEFF]%N))).
Proof.
  split.
  - apply (validateTag_padding [0x20; 0x0A]%N (lit "next") [0x09]%N);
      reflexivity.
  - apply (validateTag_padding [0x20]%N (lit "a b") [0xFEFF]%N); reflexivity.
Defined.

(** A tag that is empty or holds only trimmed units is rejected with
    [InvalidTagError]; a supplied empty tag is not replaced by the default,
    so with a valid token and registry the call throws that error. *)
Theorem blank_tag_rejected :
  forall s : js_string,
    forallb is_trimmed_unit s = true ->
    validateTag (Str s) = Throw (InvalidTagError (Str s))
    /\ (forall (host : Host) (m : PackageManifest) (o : Options)
               (t : js_string) (u : URL),
          Raw.tag o = Str s ->
          validateToken (Raw.token o) = Return t ->
          new_URL host
            (coalesce (Raw.registry o) (defaultRegistry (resolveDefaults m o)))
          = Some u ->
          normalizeOptions host m o = Throw (InvalidTagError (Str s))).
Proof.
  intros s Hs.
  assert (Hv : validateTag (Str s) = Throw (InvalidTagError (Str s))).
  { unfold validateTag. now rewrite (trim_blank _ Hs). }
  split; [exact Hv|].
  intros host m o t u Htag Htoken Hu.
  unfold normalizeOptions, validateRegistry.
  rewrite Htoken, Hu, Htag. simpl bind.
  unfold setValue at 1. now rewrite coalesce_Str, Hv.
Qed.

Lemma blank_tag_rejected_witness :
  validateTag (Str []) = Throw (InvalidTagError (Str []))
  /\ normalizeOptions scenario_host manifest_next
       (with_tag (Str []) (options_token (Str (lit "abc"))))
     = Throw (InvalidTagError (Str [])).
Proof.
  pose proof (blank_tag_rejected [] eq_refl) as (Hv & Hn).
  split; [exact Hv|].
  apply (Hn scenario_host manifest_next
           (with_tag (Str []) (options_token (Str (lit "abc"))))
           (lit "abc") (mkURL REGISTRY_NPM)); reflexivity.
Defined.

(** ** The access and strategy validators *)

Lemma strict_eq_str_true (v : unknown) (s : js_string) :
  strict_eq_str v s = true <-> v = Str s.
Proof.
  destruct v; simpl; try (split; congruence).
  rewrite js_string_eqb_eq. split; congruence.
Qed.

Lemma strict_eq_str_false (v : unknown) (s : js_string) :
  strict_eq_str v s = false <-> v <> Str s.
Proof.
  rewrite <- strict_eq_str_true. destruct (strict_eq_str v s); split; congruence.
Qed.

(** The access validator accepts exactly [undefined], ["public"] and
    ["restricted"] and returns what it was given; any other value, [null]
    and differently cased strings included, is thrown back inside an
    [InvalidAccessError]. *)
Theorem validateAccess_spec :
  forall v : unknown,
    match validateAccess v with
    | Return a => Access_value a = v
    | Throw e =>
        e = InvalidAccessError v
        /\ v <> Undefined /\ v <> Str ACCESS_PUBLIC /\ v <> Str ACCESS_RESTRICTED
    end.
Proof.
  intro v. unfold validateAccess.
  destruct (is_undefined v) eqn:Hu.
  { apply is_undefined_true in Hu. now subst v. }
  destruct (strict_eq_str v ACCESS_PUBLIC) eqn:Hp.
  { apply strict_eq_str_true in Hp. now subst v. }
  destruct (strict_eq_str v ACCESS_RESTRICTED) eqn:Hr.
  { apply strict_eq_str_true in Hr. now subst v. }
  apply strict_eq_str_false in Hp, Hr.
  repeat apply conj; try assumption; try reflexivity.
  intros ->. discriminate.
Qed.

(** The strategy validator accepts exactly ["all"] and ["upgrade"] and
    returns what it was given; any other value, [undefined] included, is
    thrown back inside an [InvalidStrategyError]. *)
Theorem validateStrategy_spec :
  forall v : unknown,
    match validateStrategy v with
    | Return st => Str (Strategy_string st) = v
    | Throw e =>
        e = InvalidStrategyError v
        /\ v <> Str STRATEGY_ALL /\ v <> Str STRATEGY_UPGRADE
    end.
Proof.
  intro v. unfold validateStrategy.
  destruct (strict_eq_str v STRATEGY_ALL) eqn:Ha.
  { apply strict_eq_str_true in Ha. now subst v. }
  destruct (strict_eq_str v STRATEGY_UPGRADE) eqn:Hg.
  { apply strict_eq_str_true in Hg. now subst v. }
  apply strict_eq_str_false in Ha, Hg. now repeat apply conj.
Qed.

Lemma validateStrategy_Return (v : unknown) (st : Strategy) :
  validateStrategy v = Return st -> Str (Strategy_string st) = v.
Proof.
  unfold validateStrategy.
  destruct (strict_eq_str v STRATEGY_ALL) eqn:Ha.
  { apply strict_eq_str_true in Ha. subst v. now intros [= <-]. }
  destruct (strict_eq_str v STRATEGY_UPGRADE) eqn:Hg; [|discriminate].
  apply strict_eq_str_true in Hg. subst v. now intros [= <-].
Qed.

(** ** The normaliser as five checks *)

(** The three [Boolean] steps cannot throw, so the call is the five
    validators in a row followed by the record. *)
Lemma normalizeOptions_steps (host : Host) (m : PackageManifest) (o : Options) :
  normalizeOptions host m o
  = (token <- validateToken (Raw.token o) ;;
     registry <- validateRegistry host
                   (coalesce (Raw.registry o)
                      (defaultRegistry (resolveDefaults m o))) ;;
     tag <- validateTag
              (coalesce (Raw.tag o) (defaultTag (resolveDefaults m o))) ;;
     access <- validateAccess
                 (coalesce (Raw.access o) (defaultAccess (resolveDefaults m o))) ;;
     strategy <- validateStrategy
                   (coalesce (Raw.strategy o) (Str STRATEGY_ALL)) ;;
     Return
       {| Out.registry := registry;
          Out.token := token;
          Out.tag := {| value := tag; isDefault := is_undefined (Raw.tag o) |};
          Out.access :=
            {| value := access; isDefault := is_undefined (Raw.access o) |};
          Out.provenance :=
            {| value :=
                 ToBoolean (coalesce (Raw.provenance o)
                              (defaultProvenance (resolveDefaults m o)));
               isDefault := is_undefined (Raw.provenance o) |};
          Out.ignoreScripts :=
            {| value := ToBoolean (coalesce (Raw.ignoreScripts o) (Bool true));
               isDefault := is_undefined (Raw.ignoreScripts o) |};
          Out.dryRun :=
            {| value := ToBoolean (coalesce (Raw.dryRun o) (Bool false));
               isDefault := is_undefined (Raw.dryRun o) |};
          Out.strategy :=
            {| value := strategy; isDefault := is_undefined (Raw.strategy o) |};
          Out.logger := Raw.logger o;
          Out.temporaryDirectory :=
            coalesce (Raw.temporaryDirectory o) (Str (os_tmpdir host)) |}).
Proof.
  unfold normalizeOptions, setValue, Boolean.
  destruct (validateToken _); simpl; [|reflexivity].
  destruct (validateRegistry _ _); simpl; [|reflexivity].
  destruct (validateTag _); simpl; [|reflexivity].
  destruct (validateAccess _); simpl; [|reflexivity].
  destruct (validateStrategy _); reflexivity.
Qed.

(** ** Which error, from which field *)

(** A thrown error names the field that failed and carries the value that
    was validated for it (the raw option, or the resolved default when the
    option is [undefined] or [null]); every field declared before it had
    passed.  The tag is the one field with two errors: [InvalidTagError] or
    the [URIError] of [encodeURIComponent]. *)
Theorem thrown_error_names_its_field :
  forall (host : Host) (m : PackageManifest) (o : Options) (e : Error),
    normalizeOptions host m o = Throw e ->
    (e = InvalidTokenError /\ validateToken (Raw.token o) = Throw e)
    \/ (e = InvalidRegistryUrlError
              (coalesce (Raw.registry o) (defaultRegistry (resolveDefaults m o)))
        /\ new_URL host
             (coalesce (Raw.registry o) (defaultRegistry (resolveDefaults m o)))
           = None
        /\ passes (validateToken (Raw.token o)))
    \/ ((e = InvalidTagError
               (coalesce (Raw.tag o) (defaultTag (resolveDefaults m o)))
         \/ e = URIError)
        /\ validateTag (coalesce (Raw.tag o) (defaultTag (resolveDefaults m o)))
           = Throw e
        /\ passes (validateToken (Raw.token o))
        /\ passes (validateRegistry host
                     (coalesce (Raw.registry o)
                        (defaultRegistry (resolveDefaults m o)))))
    \/ (e = InvalidAccessError
              (coalesce (Raw.access o) (defaultAccess (resolveDefaults m o)))
        /\ passes (validateToken (Raw.token o))
        /\ passes (validateRegistry host
                     (coalesce (Raw.registry o)
                        (defaultRegistry (resolveDefaults m o))))
        /\ passes (validateTag
                     (coalesce (Raw.tag o) (defaultTag (resolveDefaults m o)))))
    \/ (e = InvalidStrategyError (coalesce (Raw.strategy o) (Str STRATEGY_ALL))
        /\ is_nullish (Raw.strategy o) = false
        /\ passes (validateToken (Raw.token o))
        /\ passes (validateRegistry host
                     (coalesce (Raw.registry o)
                        (defaultRegistry (resolveDefaults m o))))
        /\ passes (validateTag
                     (coalesce (Raw.tag o) (defaultTag (resolveDefaults m o))))
        /\ passes (validateAccess
                     (coalesce (Raw.access o)
                        (defaultAccess (resolveDefaults m o))))).
Proof.
  intros host m o e H. rewrite normalizeOptions_steps in H.
  apply bind_Throw in H as [H | (token & Htoken & H)].
  { left. split; [now apply validateToken_Throw in H | exact H]. }
  right. apply bind_Throw in H as [H | (registry & Hregistry & H)].
  { left. split; [now apply validateRegistry_Throw in H|].
    split; [|now exists token].
    unfold validateRegistry in H. now destruct (new_URL host _). }
  right. apply bind_Throw in H as [H | (tag & Htag & H)].
  { left. split; [|split; [exact H | split; [now exists token | now exists registry]]].
    pose proof (validateTag_cases
                  (coalesce (Raw.tag o) (defaultTag (resolveDefaults m o)))) as Hc.
    rewrite H in Hc. destruct Hc as [-> | (-> & _)]; auto. }
  right. apply bind_Throw in H as [H | (access & Haccess & H)].
  { left. split; [now apply validateAccess_Throw in H|].
    split; [now exists token | split; [now exists registry | now exists tag]]. }
  right. apply bind_Throw in H as [H | (strategy & _ & H)]; [|discriminate].
  split; [now apply validateStrategy_Throw in H|].
  split.
  { destruct (is_nullish (Raw.strategy o)) eqn:Hn; [|reflexivity].
    rewrite (coalesce_nullish _ _ Hn) in H. discriminate. }
  split; [now exists token|]. split; [now exists registry|].
  split; [now exists tag | now exists access].
Qed.

Lemma thrown_error_names_its_field_witness :
  normalizeOptions scenario_host (manifest_of_scope Undefined)
    options_invalid_access
  = Throw (InvalidAccessError (Str (lit "invalid")))
  /\ passes (validateTag (Str TAG_LATEST)).
Proof.
  split; [reflexivity|].
  destruct (thrown_error_names_its_field scenario_host
              (manifest_of_scope Undefined) options_invalid_access
              (e := InvalidAccessError (Str (lit "invalid"))) eq_refl)
    as [(He & _) | [(He & _) | [([He | He] & _) | [(_ & _ & _ & Ht) | (He & _)]]]];
    try discriminate He.
  exact Ht.
Defined.

(** The fields [provenance], [ignoreScripts], [dryRun], [logger] and
    [temporaryDirectory] are never validated: whatever they hold, the call
    returns or throws the same error as for any other options with the same
    token, registry, tag, access, strategy and force flag. *)
Theorem unchecked_fields_never_throw :
  forall (host : Host) (m : PackageManifest) (o o' : Options),
    same_checked_fields o o' ->
    void (normalizeOptions host m o) = void (normalizeOptions host m o').
Proof.
  intros host m o o' (Ht & Hr & Hg & Ha & Hs & Hf).
  assert (Hd : resolveDefaults m o = resolveDefaults m o').
  { unfold resolveDefaults. now rewrite Hf. }
  rewrite !normalizeOptions_steps, Hd, Ht, Hr, Hg, Ha, Hs.
  unfold void, fmap.
  destruct (validateToken _); simpl; [|reflexivity].
  destruct (validateRegistry _ _); simpl; [|reflexivity].
  destruct (validateTag _); simpl; [|reflexivity].
  destruct (validateAccess _); simpl; [|reflexivity].
  destruct (validateStrategy _); reflexivity.
Qed.

Lemma unchecked_fields_never_throw_witness :
  void (normalizeOptions scenario_host manifest_next options_unchecked_noise)
  = Return tt.
Proof.
  rewrite (unchecked_fields_never_throw scenario_host manifest_next
             (o := options_unchecked_noise)
             (o' := options_token (Str (lit "abc")))).
  - reflexivity.
  - repeat apply conj; reflexivity.
Defined.

(** ** Where each value comes from *)

Lemma first_supplied_cons (v : unknown) (rest : list unknown) (d : unknown) :
  first_supplied (v :: rest) d = coalesce v (first_supplied rest d).
Proof. reflexivity. Qed.

Lemma resolveDefaults_candidates (m : PackageManifest) (o : Options) :
  defaultTag (resolveDefaults m o)
  = first_supplied (manifest_candidates m o PublishConfig.tag) (Str TAG_LATEST)
  /\ defaultRegistry (resolveDefaults m o)
     = first_supplied (manifest_candidates m o PublishConfig.registry)
         (Str REGISTRY_NPM)
  /\ defaultAccess (resolveDefaults m o)
     = first_supplied (manifest_candidates m o PublishConfig.access)
         (if is_undefined (scope m) then Str ACCESS_PUBLIC else Undefined)
  /\ defaultProvenance (resolveDefaults m o)
     = first_supplied (manifest_candidates m o PublishConfig.provenance)
         (Bool false).
Proof.
  unfold resolveDefaults, manifest_candidates.
  destruct (ToBoolean (Raw.forceCommandLineOptions o)) eqn:Hf.
  - pose proof (truthy_not_nullish _ Hf) as Hc. rewrite Hf in Hc.
    rewrite Hc. now repeat apply conj.
  - pose proof (falsy_takes_manifest _ Hf) as Hc. rewrite Hf in Hc.
    rewrite Hc. now repeat apply conj.
Qed.

(** The order of precedence.  In a returned record, tag, registry, access
    and provenance each come from the first source that is neither
    [undefined] nor [null]: the user's option, then (unless
    [forceCommandLineOptions] is truthy) the manifest's [publishConfig],
    then the built-in fallback. *)
Theorem value_precedence :
  forall (host : Host) (m : PackageManifest) (o : Options) (r : NormalizedOptions),
    normalizeOptions host m o = Return r ->
    Str (value (Out.tag r))
    = first_supplied (Raw.tag o :: manifest_candidates m o PublishConfig.tag)
        (Str TAG_LATEST)
    /\ new_URL host
         (first_supplied
            (Raw.registry o :: manifest_candidates m o PublishConfig.registry)
            (Str REGISTRY_NPM))
       = Some (Out.registry r)
    /\ Access_value (value (Out.access r))
       = first_supplied
           (Raw.access o :: manifest_candidates m o PublishConfig.access)
           (if is_undefined (scope m) then Str ACCESS_PUBLIC else Undefined)
    /\ value (Out.provenance r)
       = ToBoolean
           (first_supplied
              (Raw.provenance o :: manifest_candidates m o PublishConfig.provenance)
              (Bool false)).
Proof.
  intros host m o r H.
  apply normalizeOptions_Return in H as (_ & Hr & Ht & Ha & Hp & _).
  destruct (resolveDefaults_candidates m o) as (Et & Er & Ea & Ep).
  rewrite !first_supplied_cons, <- Et, <- Er, <- Ea, <- Ep.
  apply setValue_Return in Ht as (Ht & _), Ha as (Ha & _), Hp as (Hp & _).
  repeat apply conj.
  - apply validateTag_Return in Ht as (Ht & _). now symmetry.
  - unfold validateRegistry in Hr.
    destruct (new_URL host _); [congruence | discriminate].
  - now apply validateAccess_Return.
  - unfold Boolean in Hp. congruence.
Qed.

Lemma value_precedence_witness :
  exists r : NormalizedOptions,
    normalizeOptions scenario_host manifest_next (options_token (Str (lit "abc")))
    = Return r
    /\ Str (value (Out.tag r)) = Str (lit "next")
    /\ Access_value (value (Out.access r)) = Str ACCESS_RESTRICTED
    /\ value (Out.provenance r) = true.
Proof.
  eexists. split; [reflexivity|].
  pose proof (value_precedence scenario_host manifest_next
                (options_token (Str (lit "abc"))) eq_refl) as (Ht & _ & Ha & Hp).
  split; [exact Ht|]. split; [exact Ha | exact Hp].
Defined.

(** When the user supplies registry, tag, access and provenance (none of
    them [undefined] or [null]), the manifest has no influence at all: the
    call gives the same outcome for any two manifests, even one whose
    [publishConfig] holds invalid values. *)
Theorem supplied_options_shadow_manifest :
  forall (host : Host) (m m' : PackageManifest) (o : Options),
    is_nullish (Raw.registry o) = false ->
    is_nullish (Raw.tag o) = false ->
    is_nullish (Raw.access o) = false ->
    is_nullish (Raw.provenance o) = false ->
    normalizeOptions host m o = normalizeOptions host m' o.
Proof.
  intros host m m' o Hr Ht Ha Hp.
  unfold normalizeOptions, setValue.
  now rewrite !(coalesce_supplied _ _ Hr), !(coalesce_supplied _ _ Ht),
    !(coalesce_supplied _ _ Ha), !(coalesce_supplied _ _ Hp).
Qed.

Lemma supplied_options_shadow_manifest_witness :
  normalizeOptions scenario_host manifest_broken options_all_supplied
  = normalizeOptions scenario_host (manifest_of_scope Undefined)
      options_all_supplied
  /\ passes (normalizeOptions scenario_host manifest_broken options_all_supplied)
  /\ normalizeOptions scenario_host manifest_broken
       (options_token (Str (lit "abc")))
     = Throw (InvalidRegistryUrlError (Str (lit "not a url"))).
Proof.
  split; [|split; [eexists; reflexivity | reflexivity]].
  apply (supplied_options_shadow_manifest scenario_host manifest_broken
           (manifest_of_scope Undefined) options_all_supplied); reflexivity.
Defined.

(** ** What a returned record guarantees *)

Lemma validateToken_Return (v : unknown) (t : js_string) :
  validateToken v = Return t -> v = Str t /\ t <> [].
Proof.
  destruct v; simpl; try discriminate.
  destruct (Nat.ltb 0 (List.length s)) eqn:Hl; [|discriminate].
  intros [= <-]. split; [reflexivity | now apply length_pos_nonempty].
Qed.

(** In a returned record the token is the user's string and is not empty;
    the tag, once trimmed, is a non-empty run of letters, digits and the
    marks [- _ . ! ~ * ' ( )]; and the strategy is the user's string when one
    was supplied and ["all"] otherwise. *)
Theorem returned_record_is_valid :
  forall (host : Host) (m : PackageManifest) (o : Options) (r : NormalizedOptions),
    normalizeOptions host m o = Return r ->
    Raw.token o = Str (Out.token r)
    /\ Out.token r <> []
    /\ trim (value (Out.tag r)) <> []
    /\ forallb is_unescaped (trim (value (Out.tag r))) = true
    /\ Str (Strategy_string (value (Out.strategy r)))
       = coalesce (Raw.strategy o) (Str STRATEGY_ALL).
Proof.
  intros host m o r H.
  apply normalizeOptions_Return in H
    as (Htoken & _ & Ht & _ & _ & _ & _ & Hs & _).
  apply validateToken_Return in Htoken as (Htoken & Hne).
  apply setValue_Return in Ht as (Ht & _), Hs as (Hs & _).
  apply validateTag_Return in Ht as (_ & Htrim & Henc).
  apply encodeURIComponent_fixed in Henc.
  apply validateStrategy_Return in Hs.
  now repeat apply conj.
Qed.

Lemma returned_record_is_valid_witness :
  exists r : NormalizedOptions,
    normalizeOptions scenario_host (manifest_of_scope Undefined) options_beta
    = Return r
    /\ Out.token r <> []
    /\ forallb is_unescaped (trim (value (Out.tag r))) = true.
Proof.
  eexists. split; [reflexivity|].
  pose proof (returned_record_is_valid scenario_host (manifest_of_scope Undefined)
                options_beta eq_refl) as (_ & Hne & _ & Hu & _).
  split; [exact Hne | exact Hu].
Defined.

(** The boolean options are coerced, not validated.  [ignoreScripts] comes
    out false exactly when a falsy value other than [undefined] and [null]
    was supplied; [dryRun] comes out true exactly when a truthy value was
    supplied, so any non-empty string, ["false"] included, turns it on. *)
Theorem boolean_options_by_truthiness :
  forall (host : Host) (m : PackageManifest) (o : Options) (r : NormalizedOptions),
    normalizeOptions host m o = Return r ->
    (value (Out.ignoreScripts r) = false <->
     is_nullish (Raw.ignoreScripts o) = false
     /\ ToBoolean (Raw.ignoreScripts o) = false)
    /\ (value (Out.dryRun r) = true <-> ToBoolean (Raw.dryRun o) = true)
    /\ (forall s : js_string,
          Raw.dryRun o = Str s -> s <> [] -> value (Out.dryRun r) = true).
Proof.
  intros host m o r H.
  apply normalizeOptions_Return in H
    as (_ & _ & _ & _ & _ & Hi & Hd & _).
  apply setValue_Return in Hi as (Hi & _), Hd as (Hd & _).
  unfold Boolean in Hi, Hd. injection Hi as Hi. injection Hd as Hd.
  rewrite <- Hi, <- Hd. unfold coalesce.
  split; [|split].
  - destruct (is_nullish (Raw.ignoreScripts o)); simpl.
    + split; [discriminate | now intros (? & _)].
    + split; [now split | now intros (_ & ?)].
  - destruct (Raw.dryRun o); simpl; split; congruence.
  - intros s -> Hs. simpl. destruct s; [now elim Hs | reflexivity].
Qed.

Lemma boolean_options_by_truthiness_witness :
  exists r : NormalizedOptions,
    normalizeOptions scenario_host manifest_next options_unchecked_noise
    = Return r
    /\ value (Out.provenance r) = true
    /\ value (Out.ignoreScripts r) = false
    /\ value (Out.dryRun r) = true.
Proof.
  eexists. split; [reflexivity|].
  pose proof (boolean_options_by_truthiness scenario_host manifest_next
                options_unchecked_noise eq_refl) as (Hi & Hd & _).
  split; [reflexivity|].
  split; [apply Hi; now split | now apply Hd].
Defined.

(** ** Defaults that are not tracked, defaults that always pass *)

Lemma coalesce_self (v : unknown) : coalesce v v = v.
Proof. unfold coalesce. now destruct (is_nullish v). Qed.

(** The registry carries no default tracking: leaving the registry out and
    supplying the resolved default registry oneself give the same outcome,
    so a returned record cannot tell the two apart. *)
Theorem registry_default_not_tracked :
  forall (host : Host) (m : PackageManifest) (o : Options),
    is_nullish (Raw.registry o) = true ->
    normalizeOptions host m
      (with_registry (defaultRegistry (resolveDefaults m o)) o)
    = normalizeOptions host m o.
Proof.
  intros host m o Hn.
  assert (Hd : forall v, resolveDefaults m (with_registry v o)
                         = resolveDefaults m o) by reflexivity.
  unfold normalizeOptions. rewrite Hd.
  cbn [with_registry Raw.token Raw.registry Raw.tag Raw.access Raw.provenance
       Raw.ignoreScripts Raw.dryRun Raw.strategy Raw.logger
       Raw.temporaryDirectory].
  now rewrite coalesce_self, (coalesce_nullish _ _ Hn).
Qed.

Lemma registry_default_not_tracked_witness :
  normalizeOptions scenario_host manifest_next
    (with_registry (Str REGISTRY_NPM) (options_token (Str (lit "abc"))))
  = normalizeOptions scenario_host manifest_next
      (options_token (Str (lit "abc")))
  /\ passes (normalizeOptions scenario_host manifest_next
               (options_token (Str (lit "abc")))).
Proof.
  split; [|eexists; reflexivity].
  apply (registry_default_not_tracked scenario_host manifest_next
           (options_token (Str (lit "abc")))).
  reflexivity.
Defined.

Lemma resolveDefaults_no_publishConfig (m : PackageManifest) (o : Options) :
  publishConfig m = None \/ ToBoolean (Raw.forceCommandLineOptions o) = true ->
  resolveDefaults m o = initialDefaults m.
Proof.
  intros [Hpc | Hf]; [|now apply resolveDefaults_force].
  unfold resolveDefaults, publishConfig_field. rewrite Hpc.
  now destruct (_ || _).
Qed.

(** The built-in defaults always pass their validators: when the manifest
    has no [publishConfig] (or [forceCommandLineOptions] is truthy) and the
    user leaves tag, access and strategy out, a valid token and a registry
    the [URL] constructor takes are all the call needs to return, with tag
    ["latest"], strategy ["all"] and the access given by the scope. *)
Theorem builtin_defaults_pass :
  forall (host : Host) (m : PackageManifest) (o : Options)
         (t : js_string) (u : URL),
    publishConfig m = None \/ ToBoolean (Raw.forceCommandLineOptions o) = true ->
    is_nullish (Raw.tag o) = true ->
    is_nullish (Raw.access o) = true ->
    is_nullish (Raw.strategy o) = true ->
    validateToken (Raw.token o) = Return t ->
    new_URL host (coalesce (Raw.registry o) (Str REGISTRY_NPM)) = Some u ->
    exists r : NormalizedOptions,
      normalizeOptions host m o = Return r
      /\ Out.token r = t
      /\ Out.registry r = u
      /\ value (Out.tag r) = TAG_LATEST
      /\ value (Out.access r)
         = (if is_undefined (scope m) then Some Public else None)
      /\ value (Out.strategy r) = All.
Proof.
  intros host m o t u Hm Ht Ha Hs Htoken Hu.
  rewrite normalizeOptions_steps, (resolveDefaults_no_publishConfig m o Hm).
  rewrite (coalesce_nullish _ _ Ht), (coalesce_nullish _ _ Ha),
    (coalesce_nullish _ _ Hs).
  cbn [initialDefaults defaultTag defaultRegistry defaultAccess defaultProvenance].
  unfold validateRegistry. rewrite Htoken, Hu.
  change (validateTag (Str TAG_LATEST)) with (Return (A := js_string) TAG_LATEST).
  change (validateStrategy (Str STRATEGY_ALL)) with (Return All).
  destruct (is_undefined (scope m)); eexists; (split; [reflexivity|]);
    now repeat apply conj.
Qed.

Lemma builtin_defaults_pass_witness :
  exists r : NormalizedOptions,
    normalizeOptions scenario_host manifest_broken
      (with_force (Str (lit "false")) (options_token (Str (lit "abc"))))
    = Return r
    /\ value (Out.tag r) = TAG_LATEST
    /\ value (Out.access r) = Some Public.
Proof.
  destruct (builtin_defaults_pass scenario_host manifest_broken
              (with_force (Str (lit "false")) (options_token (Str (lit "abc"))))
              (t := lit "abc") (u := mkURL REGISTRY_NPM)
              (or_intror eq_refl) eq_refl eq_refl eq_refl eq_refl eq_refl)
    as (r & Hr & _ & _ & Ht & Ha & _).
  exists r. split; [exact Hr|]. split; [exact Ht | exact Ha].
Defined.
